(** * Lutok wrapper: a model of [lutok::state] and [lutok::stack_cleaner]

    The repository ships [wrap.hpp] only: the class declarations of the
    interpreter handle [state] and of the stack guard [stack_cleaner].  The
    bodies of their methods (the missing [wrap.cpp]) are modelled from the
    spec; the embedded Lua runtime is treated as a black box, given by the
    [runtime] record below, whose fixed parts (stack discipline of the C API,
    diagnostic formats) follow the Lua 5.1 C API. *)

From Stdlib Require Import ZArith Lia List Ascii.
From stdpp Require Import base gmap strings pretty.

Import ListNotations.
Open Scope Z_scope.

(** ** Values on the Lua stack *)

(** A function value: a chunk compiled from a source text (identified by its
    chunk name and source), or a native [c_function] (identified by an id). *)
Inductive fn_ref :=
| FChunk (chunkname src : string)
| FNative (id : nat).

(** Lua values.  Numbers pushed through this wrapper are integers
    ([push_integer]); they are modelled exactly, as [Z]. *)
Inductive value :=
| VNil
| VBoolean (b : bool)
| VNumber (n : Z)
| VString (s : string)
| VTable (id : nat)
| VFunction (f : fn_ref)
| VUserdata (id : nat).

(** Outcome of running a function inside the runtime. *)
Inductive call_result :=
| Returned (results : list value)
| Raised (err : value).

(** The black-box runtime: its parser (success, or the line and reason of a
    syntax error), the execution of a function on arguments and globals, the
    file system seen by [luaL_loadfile] (an [strerror] text or the contents),
    and the runtime's string-to-number conversion. *)
Record runtime := {
  rt_parse : string -> option (nat * string);
  rt_call : fn_ref -> list value -> gmap string value ->
            gmap string value * call_result;
  rt_open : string -> string + string;
  rt_str2number : string -> option Z
}.

(** The interpreter state reachable from a [lutok::state]: the value stack
    (head = top of the stack), the globals table and the next fresh heap id. *)
Record state := mk_state {
  stack : list value;
  globals : gmap string value;
  next_id : nat
}.

Definition set_stack (st : state) (s : list value) : state :=
  mk_state s (globals st) (next_id st).

(** ** Errors and the exception monad of the wrapper *)

(** Error kinds raised by the wrapper (spec, section 7). *)
Inductive lua_error :=
| CompileError (msg : string)
| RuntimeError (msg : string)
| ResourceError (msg : string)
| LogicError (msg : string).

Inductive outcome (A : Type) :=
| Ok (a : A)
| Err (e : lua_error).
Arguments Ok {A} a.
Arguments Err {A} e.

(** A C++ method of the wrapper: it reads and mutates the state and either
    returns or throws; a throw leaves the state as it was at the throw. *)
Definition M (A : Type) : Type := state -> outcome A * state.

Definition ret {A} (a : A) : M A := fun st => (Ok a, st).
Definition throw {A} (e : lua_error) : M A := fun st => (Err e, st).
Definition bind {A B} (m : M A) (k : A -> M B) : M B :=
  fun st => match m st with
            | (Ok a, st') => k a st'
            | (Err e, st') => (Err e, st')
            end.

Notation "'let!' x := m 'in' k" := (bind m (fun x => k))
  (at level 200, x name, m at level 100, k at level 200).

(** ** Stack indices (Lua's [index2adr], ordinary stack slots only) *)

(** Positive indices count from the bottom (1 = first pushed), negative ones
    from the top (-1 = top).  Index 0 and indices beyond the stack are not
    valid slots.  Pseudo-indices (registry, globals, upvalues) are not
    modelled. *)
Definition index2value (s : list value) (idx : Z) : option value :=
  let len := Z.of_nat (length s) in
  if (0 <? idx) && (idx <=? len) then nth_error s (Z.to_nat (len - idx))
  else if (idx <? 0) && (- idx <=? len) then nth_error s (Z.to_nat (- idx - 1))
  else None.

(** [lua_gettop]. *)
Definition lua_gettop (st : state) : Z := Z.of_nat (length (stack st)).

(** ** Fixed parts of the Lua 5.1 runtime *)

Definition LUA_MULTRET : Z := -1.
Definition LUA_ERRRUN : Z := 2.
Definition LUA_ERRSYNTAX : Z := 3.
Definition LUA_ERRERR : Z := 5.
Definition LUA_ERRFILE : Z := 6.
Definition LUA_IDSIZE : nat := 60.

(** [lua_typename] of a value's type. *)
Definition lua_typename (v : value) : string :=
  match v with
  | VNil => "nil"
  | VBoolean _ => "boolean"
  | VNumber _ => "number"
  | VString _ => "string"
  | VTable _ => "table"
  | VFunction _ => "function"
  | VUserdata _ => "userdata"
  end.

(** The string form of a value, as Lua's [tostring] prints it (heap values
    print their type and an identity). *)
Definition tostring_value (v : value) : string :=
  match v with
  | VNil => "nil"
  | VBoolean true => "true"
  | VBoolean false => "false"
  | VNumber n => pretty n
  | VString s => s
  | VTable id => "table: " +:+ pretty id
  | VFunction (FChunk _ _) => "function"
  | VFunction (FNative id) => "function: builtin: " +:+ pretty id
  | VUserdata id => "userdata: " +:+ pretty id
  end.

(** Position of the first newline of a string, if any. *)
Fixpoint newline_pos (s : string) : option nat :=
  match s with
  | EmptyString => None
  | String c s' =>
      if Ascii.eqb c "010"%char then Some 0%nat
      else option_map S (newline_pos s')
  end.

(** A one-character string holding a double quote. *)
Definition dquote : string := String "034"%char EmptyString.

(** [luaO_chunkid]: the chunk name as it appears in diagnostics. *)
Definition luaO_chunkid (source : string) : string :=
  match source with
  | String "=" rest => String.substring 0 (LUA_IDSIZE - 1)%nat rest
  | String "@" rest =>
      let l := String.length rest in
      if Nat.leb l (LUA_IDSIZE - 1)%nat then rest
      else "..." +:+ String.substring (l - (LUA_IDSIZE - 4))%nat (LUA_IDSIZE - 4)%nat rest
  | _ =>
      let len := String.length source in
      let bufflen := (LUA_IDSIZE - 18)%nat in
      let l1 := Nat.min len bufflen in
      let l := match newline_pos source with
               | Some p => if Nat.ltb p l1 then p else l1
               | None => l1
               end in
      "[string " +:+ dquote +:+ String.substring 0 l source
        +:+ (if Nat.ltb l len then "..." else "") +:+ dquote +:+ "]"
  end.

(** The syntax-error diagnostic of Lua's lexer: ["%s:%d: %s"]. *)
Definition syntax_diagnostic (chunkname : string) (line : nat)
    (reason : string) : string :=
  luaO_chunkid chunkname +:+ ":" +:+ pretty line +:+ ": " +:+ reason.

Definition push_value (v : value) (st : state) : state :=
  set_stack st (v :: stack st).

(** [luaL_loadbuffer]: compile and push the chunk, or push the diagnostic. *)
Definition luaL_loadbuffer (rt : runtime) (src chunkname : string)
    (st : state) : Z * state :=
  match rt_parse rt src with
  | None => (0, push_value (VFunction (FChunk chunkname src)) st)
  | Some (line, reason) =>
      (LUA_ERRSYNTAX, push_value (VString (syntax_diagnostic chunkname line reason)) st)
  end.

(** [luaL_loadstring]: the chunk name is the source itself. *)
Definition luaL_loadstring (rt : runtime) (s : string) (st : state) : Z * state :=
  luaL_loadbuffer rt s s st.

(** [luaL_loadfile] drops a first line starting with '#' (keeping its
    newline, so that line numbers are preserved). *)
Definition skip_comment (contents : string) : string :=
  match contents with
  | String "#" rest =>
      match newline_pos rest with
      | Some p => String.substring p (String.length rest - p)%nat rest
      | None => EmptyString
      end
  | _ => contents
  end.

Definition luaL_loadfile (rt : runtime) (fname : string) (st : state) : Z * state :=
  match rt_open rt fname with
  | inl serr =>
      (LUA_ERRFILE, push_value (VString ("cannot open " +:+ fname +:+ ": " +:+ serr)) st)
  | inr contents => luaL_loadbuffer rt (skip_comment contents) ("@" +:+ fname) st
  end.

(** Calling a value: non-functions raise Lua's "attempt to call" error. *)
Definition call_value (rt : runtime) (f : value) (args : list value)
    (g : gmap string value) : gmap string value * call_result :=
  match f with
  | VFunction fr => rt_call rt fr args g
  | _ => (g, Raised (VString ("attempt to call a " +:+ lua_typename f +:+ " value")))
  end.

(** The message handler of [lua_pcall] turns the raised value into the error
    object; a failing handler yields Lua's "error in error handling". *)
Definition handle_error (rt : runtime) (h : value) (e : value)
    (g : gmap string value) : gmap string value * value :=
  match h with
  | VFunction fr =>
      match rt_call rt fr [e] g with
      | (g', Returned (r :: _)) => (g', r)
      | (g', Returned []) => (g', VNil)
      | (g', Raised _) => (g', VString "error in error handling")
      end
  | _ => (g, VString "error in error handling")
  end.

(** Results adjusted to the requested count ([LUA_MULTRET] keeps all). *)
Definition adjust_results (nresults : Z) (rs : list value) : list value :=
  if nresults =? LUA_MULTRET then rs
  else firstn (Z.to_nat nresults) (rs ++ repeat VNil (Z.to_nat nresults)).

(** [lua_tonumber] restricted to the integer values of this model. *)
Definition lua_tonumber (rt : runtime) (v : value) : option Z :=
  match v with
  | VNumber n => Some n
  | VString s => rt_str2number rt s
  | _ => None
  end.

(** [lua_number2integer] into [lua_Integer] ([ptrdiff_t], 64 bits). *)
Definition to_long (z : Z) : Z := Z.modulo (z + 2^63) (2^64) - 2^63.

(** ** The methods of [lutok::state] *)

(** Modelled from the spec: the bodies of the [state] methods (the missing
    [wrap.cpp]).  Each checked method calls the Lua C API and turns a failure
    status into a typed error carrying the runtime's message; the inspection
    methods never throw. *)

(** Runs a C API call that does not throw. *)
Definition lift {A} (f : state -> A * state) : M A :=
  fun st => let (a, st') := f st in (Ok a, st').

(** The message the runtime left on top of the stack. *)
Definition top_message (st : state) : string :=
  match stack st with
  | v :: _ => tostring_value v
  | [] => ""
  end.

Definition get_top : M Z := fun st => (Ok (lua_gettop st), st).

Definition push_nil : M unit := fun st => (Ok tt, push_value VNil st).
Definition push_boolean (b : bool) : M unit :=
  fun st => (Ok tt, push_value (VBoolean b) st).
(** [push_integer] takes a C++ [int]. *)
Definition push_integer (i : Z) : M unit :=
  fun st => (Ok tt, push_value (VNumber i) st).
Definition push_string (s : string) : M unit :=
  fun st => (Ok tt, push_value (VString s) st).

(** [new_table]: a fresh table on top of the stack. *)
Definition new_table : M unit :=
  fun st => (Ok tt, mk_state (VTable (next_id st) :: stack st) (globals st)
                             (S (next_id st))).

(** [pop]: [lua_pop], i.e. [lua_settop(L, -n - 1)]. *)
Definition pop (n : Z) : M unit :=
  fun st => (Ok tt, set_stack st (skipn (Z.to_nat n) (stack st))).

(** [get_global] pushes the named global ([nil] when unset). *)
Definition get_global (name : string) : M unit :=
  fun st => (Ok tt, push_value (default VNil (globals st !! name)) st).

(** [set_global] pops the top of the stack into the named global; an empty
    stack is a caller error. *)
Definition set_global (name : string) : M unit :=
  fun st => match stack st with
            | v :: s' => (Ok tt, mk_state s' (<[name := v]> (globals st)) (next_id st))
            | [] => (Err (LogicError "lua_setglobal: empty stack"), st)
            end.

(** Lua 5.1's pseudo-indices, below every stack index: the registry, the
    environment of the running function and the globals table, then the
    upvalues of the running C function. *)
Definition LUA_REGISTRYINDEX : Z := -10000.
Definition LUA_ENVIRONINDEX : Z := -10001.
Definition LUA_GLOBALSINDEX : Z := -10002.

(** [upvalue_index]: [lua_upvalueindex], the pseudo-index of the [i]-th
    upvalue of the running C function. *)
Definition upvalue_index (i : Z) : Z := LUA_GLOBALSINDEX - i.

(** What an index designates ([index2adr]): a value (a stack slot or an
    upvalue), one of the three tables reached through a pseudo-index (their
    contents are not modelled), or nothing. *)
Inductive slot :=
| SValue (v : value)
| SPseudoTable
| SNone.

(** [upvals] are the upvalues of the C function running when the method is
    called (none at the host's top level). *)
Definition index2adr (upvals : list value) (s : list value) (idx : Z) : slot :=
  if LUA_REGISTRYINDEX <? idx then
    match index2value s idx with
    | Some v => SValue v
    | None => SNone
    end
  else if (idx =? LUA_REGISTRYINDEX) || (idx =? LUA_ENVIRONINDEX)
          || (idx =? LUA_GLOBALSINDEX) then SPseudoTable
  else
    match nth_error upvals (Z.to_nat (LUA_GLOBALSINDEX - idx - 1)) with
    | Some v => SValue v
    | None => SNone
    end.

(** The type predicates read what [idx] designates: the type test of the
    value there, [on_table] for the pseudo-index tables, and [false] when
    the index designates nothing. *)
Definition slot_test (t : value -> bool) (on_table : bool) (sl : slot) : bool :=
  match sl with
  | SValue v => t v
  | SPseudoTable => on_table
  | SNone => false
  end.

Definition inspect (t : value -> bool) (on_table : bool) (upvals : list value)
    (idx : Z) : M bool :=
  fun st => (Ok (slot_test t on_table (index2adr upvals (stack st) idx)), st).

Definition value_is_boolean (v : value) : bool :=
  match v with VBoolean _ => true | _ => false end.
Definition value_is_function (v : value) : bool :=
  match v with VFunction _ => true | _ => false end.
Definition value_is_nil (v : value) : bool :=
  match v with VNil => true | _ => false end.
(** [lua_isnumber] also accepts strings convertible to numbers. *)
Definition value_is_number (rt : runtime) (v : value) : bool :=
  match lua_tonumber rt v with Some _ => true | None => false end.
(** [lua_isstring] also accepts numbers. *)
Definition value_is_string (v : value) : bool :=
  match v with VString _ | VNumber _ => true | _ => false end.
Definition value_is_table (v : value) : bool :=
  match v with VTable _ => true | _ => false end.
Definition value_is_userdata (v : value) : bool :=
  match v with VUserdata _ => true | _ => false end.

Definition is_boolean (upvals : list value) (idx : Z) : M bool :=
  inspect value_is_boolean false upvals idx.
Definition is_function (upvals : list value) (idx : Z) : M bool :=
  inspect value_is_function false upvals idx.
Definition is_nil (upvals : list value) (idx : Z) : M bool :=
  inspect value_is_nil false upvals idx.
Definition is_number (rt : runtime) (upvals : list value) (idx : Z) : M bool :=
  inspect (value_is_number rt) false upvals idx.
Definition is_string (upvals : list value) (idx : Z) : M bool :=
  inspect value_is_string false upvals idx.
Definition is_table (upvals : list value) (idx : Z) : M bool :=
  inspect value_is_table true upvals idx.
Definition is_userdata (upvals : list value) (idx : Z) : M bool :=
  inspect value_is_userdata false upvals idx.

(** [to_integer]: [lua_tointeger], 0 for a value that is not a number. *)
Definition to_integer (rt : runtime) (idx : Z) : M Z :=
  fun st => (Ok (match index2value (stack st) idx with
                 | Some v => match lua_tonumber rt v with
                             | Some n => to_long n
                             | None => 0
                             end
                 | None => 0
                 end), st).

(** [load_string] and [load_file]: a non-zero status of the loader becomes a
    compile error carrying the diagnostic the runtime pushed. *)
Definition load_with (loader : state -> Z * state) : M unit :=
  let! status := lift loader in
  fun st => if status =? 0 then (Ok tt, st)
            else (Err (CompileError (top_message st)), st).

Definition load_string (rt : runtime) (s : string) : M unit :=
  load_with (luaL_loadstring rt s).

Definition load_file (rt : runtime) (fname : string) : M unit :=
  load_with (luaL_loadfile rt fname).

(** [pcall]: [lua_pcall] on the function below [nargs] arguments.  On an
    error the runtime leaves the error object on top in place of the function
    and its arguments, and the wrapper throws a runtime error carrying the
    error object's string form.  Too few stack entries or an invalid handler
    index are caller errors. *)
Definition pcall (rt : runtime) (nargs nresults errfunc : Z) : M unit :=
  fun st =>
    let s := stack st in
    if (nargs <? 0) || (Z.of_nat (length s) <? nargs + 1) then
      (Err (LogicError "lua_pcall: not enough stack entries"), st)
    else
      let n := Z.to_nat nargs in
      let f := nth n s VNil in
      let args := rev (firstn n s) in
      let rest := skipn (S n) s in
      let handler := if errfunc =? 0 then Some None
                     else option_map Some (index2value s errfunc) in
      match handler with
      | None => (Err (LogicError "lua_pcall: invalid error handler index"), st)
      | Some h =>
          match call_value rt f args (globals st) with
          | (g1, Returned rs) =>
              (Ok tt, mk_state (rev (adjust_results nresults rs) ++ rest) g1 (next_id st))
          | (g1, Raised e) =>
              let '(g2, errobj) := match h with
                                   | None => (g1, e)
                                   | Some hv => handle_error rt hv e g1
                                   end in
              (Err (RuntimeError (tostring_value errobj)),
               mk_state (errobj :: rest) g2 (next_id st))
          end
      end.

(** ** [lutok::stack_cleaner] *)

(** Modelled from the spec: the bodies of the [stack_cleaner] methods.  The
    guard records the depth at construction; destruction, unless forgotten,
    pops [max(0, current - recorded)] entries. *)
Record stack_cleaner := mk_stack_cleaner {
  original_depth : Z;
  forgotten : bool
}.

Definition stack_cleaner_new (st : state) : stack_cleaner :=
  mk_stack_cleaner (lua_gettop st) false.

Definition forget (g : stack_cleaner) : stack_cleaner :=
  mk_stack_cleaner (original_depth g) true.

Definition stack_cleaner_destroy (g : stack_cleaner) (st : state) : state :=
  if forgotten g then st
  else
    let diff := lua_gettop st - original_depth g in
    if 0 <? diff then snd (pop diff st) else st.

(** ** Sequences of handle operations *)

Inductive op :=
| OpPushNil
| OpPushBoolean (b : bool)
| OpPushInteger (i : Z)
| OpPushString (s : string)
| OpNewTable
| OpPop (n : Z)
| OpGetGlobal (name : string)
| OpSetGlobal (name : string)
| OpLoadString (s : string)
| OpLoadFile (fname : string)
| OpPcall (nargs nresults errfunc : Z).

Definition run_op (rt : runtime) (o : op) : M unit :=
  match o with
  | OpPushNil => push_nil
  | OpPushBoolean b => push_boolean b
  | OpPushInteger i => push_integer i
  | OpPushString s => push_string s
  | OpNewTable => new_table
  | OpPop n => pop n
  | OpGetGlobal name => get_global name
  | OpSetGlobal name => set_global name
  | OpLoadString s => load_string rt s
  | OpLoadFile fname => load_file rt fname
  | OpPcall a r e => pcall rt a r e
  end.

(** A block of code: the operations run in order; the first one that throws
    ends the block (the exception propagates out of the scope). *)
Fixpoint exec_ops (rt : runtime) (ops : list op) : M unit :=
  match ops with
  | [] => ret tt
  | o :: os => let! _ := run_op rt o in exec_ops rt os
  end.

(** The operations that only push one value. *)
Definition is_push (o : op) : bool :=
  match o with
  | OpPushNil | OpPushBoolean _ | OpPushInteger _ | OpPushString _
  | OpNewTable => true
  | _ => false
  end.

(** A sample runtime, used to run the model on concrete scripts: its parser
    only checks that parentheses balance (reporting Lua's message for a
    missing ')'), chunks whose source starts with "error(" raise "boom",
    other chunks return nothing, no file can be opened and no string
    converts to a number. *)
Fixpoint paren_balance (s : string) (open_ : nat) : option nat :=
  match s with
  | EmptyString => Some open_
  | String c s' =>
      if Ascii.eqb c "("%char then paren_balance s' (S open_)
      else if Ascii.eqb c ")"%char then
        match open_ with
        | O => None
        | S k => paren_balance s' k
        end
      else paren_balance s' open_
  end.

Definition sample_rt : runtime := {|
  rt_parse := fun src =>
    match paren_balance src 0 with
    | Some O => None
    | Some _ => Some (1%nat, "')' expected near '<eof>'")
    | None => Some (1%nat, "unexpected symbol near ')'")
    end;
  rt_call := fun f _ g =>
    match f with
    | FChunk _ src =>
        if String.prefix "error(" src then (g, Raised (VString "boom"))
        else (g, Returned [])
    | FNative _ => (g, Returned [])
    end;
  rt_open := fun _ => inl "No such file or directory";
  rt_str2number := fun _ => None
|}.

Definition empty_state : state := mk_state [] ∅ 0.

(** ** Ownership of the interpreter instance *)

(** Modelled from the spec: the lifecycle of [lutok::state] (constructors,
    [close], destructor).  The world records the live interpreter instances
    and every [lua_close] performed. *)
Module Lifecycle.

Record world := mk_world {
  live : list nat;
  closed_log : list nat;
  fresh : nat
}.

(** The handle: the instance it refers to ([NULL] once closed) and whether
    it owns it. *)
Record handle := mk_handle {
  lua_state : option nat;
  owned : bool
}.

Definition lua_close (i : nat) (w : world) : world :=
  mk_world (List.remove Nat.eq_dec i (live w)) (i :: closed_log w) (fresh w).

(** [state()]: a fresh, owned instance ([luaL_newstate]). *)
Definition state_new (w : world) : handle * world :=
  (mk_handle (Some (fresh w)) true,
   mk_world (fresh w :: live w) (closed_log w) (S (fresh w))).

(** Constructor from a [lua_State] pointer: wraps a live instance without
    owning it. *)
Definition state_wrap (i : nat) : handle := mk_handle (Some i) false.

(** [close]: releases an owned instance and detaches the handle. *)
Definition close (h : handle) (w : world) : handle * world :=
  match lua_state h with
  | Some i => (mk_handle None (owned h), if owned h then lua_close i w else w)
  | None => (h, w)
  end.

(** [~state]: releases the instance only if owned and not yet closed. *)
Definition state_destroy (h : handle) (w : world) : world :=
  match lua_state h with
  | Some i => if owned h then lua_close i w else w
  | None => w
  end.

End Lifecycle.

(** ** Scopes guarded by a [stack_cleaner] *)

(** A C++ block that starts with a named [stack_cleaner]: the guard records
    the depth on entry, and its destructor runs when the block is left,
    normally or by an exception. *)
Definition with_cleaner {A} (body : M A) : M A :=
  fun st =>
    let g := stack_cleaner_new st in
    let (r, st') := body st in
    (r, stack_cleaner_destroy g st').

(** The usage example of [wrap.hpp]: an outer cleaner, two integers pushed,
    then a loop whose every iteration opens its own cleaner, loads a script
    and calls it with [pcall(0, 1, 0)]. *)
Definition example_iteration (rt : runtime) (s : string) : M unit :=
  with_cleaner (let! _ := load_string rt s in pcall rt 0 1 0).

Fixpoint example_loop (rt : runtime) (scripts : list string) : M unit :=
  match scripts with
  | [] => ret tt
  | s :: ss => let! _ := example_iteration rt s in example_loop rt ss
  end.

Definition header_example (rt : runtime) (scripts : list string) : M unit :=
  with_cleaner (let! _ := push_integer 3 in
                let! _ := push_integer 5 in
                example_loop rt scripts).

(** * Properties *)

(** ** Helper lemmas on the guard *)

Lemma lua_gettop_set_stack (st : state) (s : list value) :
  lua_gettop (set_stack st s) = Z.of_nat (length s).
Proof. reflexivity. Qed.

(** The destructor of a live guard drops [max(0, current - recorded)]
    entries from the top. *)
Lemma destroy_live_stack (g : stack_cleaner) (st : state) :
  forgotten g = false ->
  stack (stack_cleaner_destroy g st)
  = skipn (Z.to_nat (Z.max 0 (lua_gettop st - original_depth g))) (stack st).
Proof.
  intros Hf. unfold stack_cleaner_destroy. rewrite Hf.
  destruct (0 <? lua_gettop st - original_depth g) eqn:E.
  - apply Z.ltb_lt in E. simpl. f_equal. f_equal. lia.
  - apply Z.ltb_ge in E. replace (Z.max 0 _) with 0 by lia. reflexivity.
Qed.

Lemma destroy_live_globals (g : stack_cleaner) (st : state) :
  globals (stack_cleaner_destroy g st) = globals st.
Proof.
  unfold stack_cleaner_destroy.
  repeat case_match; reflexivity.
Qed.

(** A live guard whose recorded depth is that of [s0] restores [s0] exactly
    when the current stack extends it. *)
Lemma destroy_restores_suffix (g : stack_cleaner) (st : state)
    (vs s0 : list value) :
  forgotten g = false ->
  original_depth g = Z.of_nat (length s0) ->
  stack st = vs ++ s0 ->
  stack (stack_cleaner_destroy g st) = s0.
Proof.
  intros Hf Hd Hs. rewrite destroy_live_stack by exact Hf.
  unfold lua_gettop. rewrite Hd, Hs, length_app.
  replace (Z.to_nat _) with (length vs) by lia.
  rewrite skipn_app, skipn_all, Nat.sub_diag. reflexivity.
Qed.

(** A push operation succeeds and adds one value on top. *)
Lemma run_push (rt : runtime) (o : op) (st : state) :
  is_push o = true ->
  exists v st', run_op rt o st = (Ok tt, st') /\ stack st' = v :: stack st.
Proof.
  intros Ho. destruct o; try discriminate Ho; do 2 eexists; split; reflexivity.
Qed.

(** A block of pushes succeeds and stacks new values on the old stack. *)
Lemma exec_pushes (rt : runtime) (ops : list op) (st : state) :
  forallb is_push ops = true ->
  fst (exec_ops rt ops st) = Ok tt /\
  exists vs, stack (snd (exec_ops rt ops st)) = vs ++ stack st.
Proof.
  revert st. induction ops as [|o os IH]; intros st Hp.
  - split; [reflexivity|]. exists []. reflexivity.
  - simpl in Hp. apply andb_prop in Hp as [Ho Hos].
    destruct (run_push rt o st Ho) as (v & st' & Hrun & Hst').
    simpl. unfold bind. rewrite Hrun.
    destruct (IH st' Hos) as [Hok [vs Hvs]]. split; [exact Hok|].
    exists (vs ++ [v]). rewrite Hvs, Hst', <- app_assoc. reflexivity.
Qed.

Lemma exec_pushes_depth (rt : runtime) (ops : list op) (st : state) :
  forallb is_push ops = true ->
  lua_gettop st <= lua_gettop (snd (exec_ops rt ops st)).
Proof.
  intros Hp. destruct (exec_pushes rt ops st Hp) as [_ [vs Hvs]].
  unfold lua_gettop. rewrite Hvs, length_app. lia.
Qed.

(** ** The stack guard *)

(** C1 (amended): a live [stack_cleaner], after any block of handle
    operations (ended normally or by an exception), pops
    [max(0, current - recorded)] entries on destruction; the depth becomes
    [min(current, recorded)]: exactly the recorded depth whenever the stack
    was not shrunk below it, and unchanged (nothing popped) otherwise. *)
Theorem stack_cleaner_destroy_depth (rt : runtime) (ops : list op) (st0 : state) :
  let g := stack_cleaner_new st0 in
  let st1 := snd (exec_ops rt ops st0) in
  let st2 := stack_cleaner_destroy g st1 in
  stack st2 = skipn (Z.to_nat (Z.max 0 (lua_gettop st1 - lua_gettop st0))) (stack st1) /\
  lua_gettop st2 = Z.min (lua_gettop st1) (lua_gettop st0) /\
  (lua_gettop st0 <= lua_gettop st1 -> lua_gettop st2 = lua_gettop st0).
Proof.
  intros g st1 st2.
  assert (Hs : stack st2
               = skipn (Z.to_nat (Z.max 0 (lua_gettop st1 - lua_gettop st0))) (stack st1))
    by (apply destroy_live_stack; reflexivity).
  assert (Hd : lua_gettop st2 = Z.min (lua_gettop st1) (lua_gettop st0)).
  { unfold lua_gettop at 1. rewrite Hs, length_skipn.
    unfold lua_gettop. lia. }
  split; [exact Hs|]. split; [exact Hd|]. lia.
Qed.

(** C1 (counterexample): a block that pops below the recorded depth (one
    [pop] from a depth of 1) leaves the stack at depth 0 after the guard is
    destroyed, not at the recorded depth 1. *)
Lemma stack_cleaner_destroy_depth_cex :
  let st0 := push_value VNil empty_state in
  let st1 := snd (exec_ops sample_rt [OpPop 1] st0) in
  lua_gettop (stack_cleaner_destroy (stack_cleaner_new st0) st1) = 0 /\
  lua_gettop st0 = 1.
Proof. split; reflexivity. Qed.

(** The depth a live guard with a non-negative recorded depth leaves. *)
Lemma destroy_live_depth (g : stack_cleaner) (st : state) :
  forgotten g = false -> 0 <= original_depth g ->
  lua_gettop (stack_cleaner_destroy g st) = Z.min (lua_gettop st) (original_depth g).
Proof.
  intros Hf H0. unfold lua_gettop at 1.
  rewrite (destroy_live_stack g st Hf), length_skipn. unfold lua_gettop. lia.
Qed.

(** C2 (amended): let G1 be built, then any operations run that leave the
    stack no shorter than G1's recorded depth (the caller's obligation stated
    in the header), then G2 be built.  Then G1's recorded depth is at most
    G2's.  Whatever operations run during G2's lifetime, G2's cleanup only
    removes the [max(0, current - recorded)] entries above its recorded
    depth.  When those operations are pushes, destroying G2 restores exactly
    the stack G2 saw at its construction.  Destroying G1 leaves the stack at
    G1's recorded depth whenever the stack is not below that depth at that
    point, in particular in the scenario where pushes follow in both
    scopes. *)
Theorem nested_guards_restore (rt : runtime) (st0 : state)
    (ops_a ops2 ops1 : list op) :
  lua_gettop st0 <= lua_gettop (snd (exec_ops rt ops_a st0)) ->
  let g1 := stack_cleaner_new st0 in
  let st1 := snd (exec_ops rt ops_a st0) in
  let g2 := stack_cleaner_new st1 in
  let st2 := snd (exec_ops rt ops2 st1) in
  let st3 := stack_cleaner_destroy g2 st2 in
  let st4 := snd (exec_ops rt ops1 st3) in
  let st5 := stack_cleaner_destroy g1 st4 in
  original_depth g1 <= original_depth g2 /\
  (exists popped, stack st2 = popped ++ stack st3 /\
     length popped = Z.to_nat (Z.max 0 (lua_gettop st2 - original_depth g2))) /\
  (forallb is_push ops2 = true -> stack st3 = stack st1) /\
  (original_depth g1 <= lua_gettop st4 -> lua_gettop st5 = original_depth g1) /\
  (forallb is_push ops2 = true -> forallb is_push ops1 = true ->
   lua_gettop st5 = original_depth g1).
Proof.
  intros Ha g1 st1 g2 st2 st3 st4 st5.
  assert (Hd1 : 0 <= original_depth g1) by apply Nat2Z.is_nonneg.
  assert (Hd2 : 0 <= original_depth g2) by apply Nat2Z.is_nonneg.
  assert (Hg : original_depth g1 <= original_depth g2) by exact Ha.
  assert (H3 : forallb is_push ops2 = true -> stack st3 = stack st1).
  { intros H2. destruct (exec_pushes rt ops2 st1 H2) as [_ [vs Hvs]].
    apply (destroy_restores_suffix _ _ vs); [reflexivity|reflexivity|exact Hvs]. }
  assert (H5 : original_depth g1 <= lua_gettop st4 ->
               lua_gettop st5 = original_depth g1).
  { intros H4. unfold st5. rewrite destroy_live_depth by (reflexivity || exact Hd1).
    lia. }
  split; [exact Hg|]. split.
  - exists (firstn (Z.to_nat (Z.max 0 (lua_gettop st2 - original_depth g2)))
                   (stack st2)).
    split.
    + unfold st3. rewrite (destroy_live_stack g2 st2 eq_refl).
      symmetry. apply firstn_skipn.
    + rewrite length_firstn. unfold lua_gettop. apply Nat.min_l. lia.
  - split; [exact H3|]. split; [exact H5|].
    intros H2 H1. apply H5.
    assert (Ht3 : lua_gettop st3 = lua_gettop st1)
      by (unfold lua_gettop; rewrite (H3 H2); reflexivity).
    pose proof (exec_pushes_depth rt ops1 st3 H1) as H4. fold st4 in H4.
    change (original_depth g1) with (lua_gettop st0). fold st1 in Ha. lia.
Qed.

Lemma nested_guards_restore_witness :
  lua_gettop empty_state
  <= lua_gettop (snd (exec_ops sample_rt [OpPushNil; OpPop 1; OpPushInteger 7] empty_state)) /\
  let g1 := stack_cleaner_new empty_state in
  let st1 := snd (exec_ops sample_rt [OpPushNil; OpPop 1; OpPushInteger 7] empty_state) in
  let g2 := stack_cleaner_new st1 in
  let st2 := snd (exec_ops sample_rt [OpPushInteger 1; OpNewTable] st1) in
  let st3 := stack_cleaner_destroy g2 st2 in
  let st4 := snd (exec_ops sample_rt [OpPushString "a"] st3) in
  let st5 := stack_cleaner_destroy g1 st4 in
  original_depth g1 <= original_depth g2 /\
  (exists popped, stack st2 = popped ++ stack st3 /\
     length popped = Z.to_nat (Z.max 0 (lua_gettop st2 - original_depth g2))) /\
  (forallb is_push [OpPushInteger 1; OpNewTable] = true -> stack st3 = stack st1) /\
  (original_depth g1 <= lua_gettop st4 -> lua_gettop st5 = original_depth g1) /\
  (forallb is_push [OpPushInteger 1; OpNewTable] = true -> forallb is_push [OpPushString "a"] = true ->
   lua_gettop st5 = original_depth g1).
Proof.
  split; [vm_compute; discriminate|].
  apply (nested_guards_restore sample_rt empty_state [OpPushNil; OpPop 1; OpPushInteger 7]
           [OpPushInteger 1; OpNewTable] [OpPushString "a"]).
  vm_compute. discriminate.
Defined.

(** C2 (counterexample): a [pop] between the two constructions makes the
    inner guard record depth 0 while the outer one recorded depth 1. *)
Lemma nested_guards_order_cex :
  let st0 := push_value VNil empty_state in
  let g1 := stack_cleaner_new st0 in
  let g2 := stack_cleaner_new (snd (exec_ops sample_rt [OpPop 1] st0)) in
  original_depth g1 = 1 /\ original_depth g2 = 0.
Proof. split; reflexivity. Qed.

(** C3: [forget] is idempotent, and a guard forgotten once or more leaves
    the state reached by any block of operations untouched on destruction:
    every entry pushed in its lifetime persists. *)
Theorem forget_disables_cleanup (rt : runtime) (ops : list op) (st0 : state)
    (n : nat) :
  let g := Nat.iter (S n) forget (stack_cleaner_new st0) in
  let st1 := snd (exec_ops rt ops st0) in
  stack_cleaner_destroy g st1 = st1 /\
  (forall g' : stack_cleaner, forget (forget g') = forget g').
Proof.
  intros g st1. split.
  - unfold g. simpl. reflexivity.
  - intros g'. reflexivity.
Qed.

(** ** Helper lemmas on the handle *)

Lemma append_nonempty (a b : string) (c : Ascii.ascii) :
  (a +:+ String c b) <> "".
Proof. destruct a; simpl; discriminate. Qed.

Lemma syntax_diagnostic_nonempty (chunkname reason : string) (line : nat) :
  syntax_diagnostic chunkname line reason <> "".
Proof. unfold syntax_diagnostic. apply append_nonempty. Qed.

Lemma index2value_top (v : value) (s : list value) :
  index2value (v :: s) (-1) = Some v.
Proof.
  assert (E : (1 <=? Z.of_nat (length (v :: s))) = true)
    by (apply Z.leb_le; simpl length; lia).
  unfold index2value. cbv zeta.
  change (0 <? -1) with false. change (-1 <? 0) with true.
  change (- (-1)) with 1. rewrite E. reflexivity.
Qed.

Lemma index2value_out_of_range (s : list value) (idx : Z) :
  (idx = 0 \/ Z.of_nat (length s) < idx \/ idx < - Z.of_nat (length s)) ->
  index2value s idx = None.
Proof.
  intros H. unfold index2value.
  destruct (Z.ltb_spec 0 idx), (Z.leb_spec idx (Z.of_nat (length s))),
    (Z.ltb_spec idx 0), (Z.leb_spec (- idx) (Z.of_nat (length s)));
    simpl; try reflexivity; lia.
Qed.

Lemma to_long_int (v : Z) : -2^31 <= v <= 2^31 - 1 -> to_long v = v.
Proof. intros H. unfold to_long. rewrite Z.mod_small; lia. Qed.

(** ** Loading code *)

(** C4: [load_string] either succeeds, the source being valid, and leaves
    exactly the compiled chunk on top of the stack, or throws a compile
    error whose message is the runtime's diagnostic (the very string it
    pushed on the stack), which is never empty; [load_file] likewise. *)
Theorem load_outcome (rt : runtime) (s fname : string) (st : state) :
  match load_string rt s st with
  | (Ok _, st') =>
      rt_parse rt s = None /\ stack st' = VFunction (FChunk s s) :: stack st
  | (Err e, st') =>
      exists line reason,
        rt_parse rt s = Some (line, reason) /\
        e = CompileError (syntax_diagnostic s line reason) /\
        stack st' = VString (syntax_diagnostic s line reason) :: stack st /\
        syntax_diagnostic s line reason <> ""
  end /\
  match load_file rt fname st with
  | (Ok _, st') =>
      exists contents,
        rt_open rt fname = inr contents /\
        rt_parse rt (skip_comment contents) = None /\
        stack st' = VFunction (FChunk ("@" +:+ fname) (skip_comment contents)) :: stack st
  | (Err e, st') =>
      exists msg,
        e = CompileError msg /\ stack st' = VString msg :: stack st /\ msg <> ""
  end.
Proof.
  split.
  - unfold load_string, load_with, bind, lift, luaL_loadstring, luaL_loadbuffer.
    destruct (rt_parse rt s) as [[line reason]|] eqn:Hp; simpl.
    + exists line, reason. repeat split; try reflexivity.
      apply syntax_diagnostic_nonempty.
    + split; reflexivity.
  - unfold load_file, load_with, bind, lift, luaL_loadfile, luaL_loadbuffer.
    destruct (rt_open rt fname) as [serr|contents] eqn:Ho; simpl.
    + eexists. repeat split. discriminate.
    + destruct (rt_parse rt (skip_comment contents)) as [[line reason]|] eqn:Hp;
        simpl.
      * eexists. repeat split. apply syntax_diagnostic_nonempty.
      * exists contents. repeat split; assumption || reflexivity.
Qed.

(** ** Protected calls *)

(** C5: when the called function raises, [pcall] throws a runtime error
    whose message is the string form of the error object, and leaves that
    error object on top, in place of the function and its arguments; with
    no message handler the error object is the raised value itself. *)
Theorem pcall_raise (rt : runtime) (st : state) (nargs nresults errfunc : Z)
    (g1 : gmap string value) (e : value) :
  0 <= nargs ->
  nargs + 1 <= lua_gettop st ->
  (errfunc = 0 \/ index2value (stack st) errfunc <> None) ->
  call_value rt (nth (Z.to_nat nargs) (stack st) VNil)
    (rev (firstn (Z.to_nat nargs) (stack st))) (globals st) = (g1, Raised e) ->
  exists errobj g2,
    pcall rt nargs nresults errfunc st =
      (Err (RuntimeError (tostring_value errobj)),
       mk_state (errobj :: skipn (S (Z.to_nat nargs)) (stack st)) g2 (next_id st)) /\
    (errfunc = 0 -> errobj = e).
Proof.
  intros Hn Hlen Hh Hcall. unfold pcall.
  assert (E1 : (nargs <? 0) = false) by (apply Z.ltb_ge; lia).
  assert (E2 : (Z.of_nat (length (stack st)) <? nargs + 1) = false)
    by (apply Z.ltb_ge; unfold lua_gettop in Hlen; lia).
  rewrite E1, E2. simpl orb. cbv zeta.
  destruct (Z.eqb_spec errfunc 0) as [E0|E0].
  - rewrite Hcall. exists e, g1. split; reflexivity.
  - destruct (index2value (stack st) errfunc) as [hv|] eqn:Hi;
      [|destruct Hh as [Hh|Hh]; [contradiction|congruence]].
    simpl. rewrite Hcall.
    destruct (handle_error rt hv e g1) as [g2 errobj].
    exists errobj, g2. split; [reflexivity|]. intros; contradiction.
Qed.

Definition boom_chunk : value := VFunction (FChunk "error('boom')" "error('boom')").

Lemma pcall_raise_witness :
  (0 <= 0 /\ 0 + 1 <= lua_gettop (push_value boom_chunk empty_state) /\
   (0 = 0 \/ index2value (stack (push_value boom_chunk empty_state)) 0 <> None) /\
   call_value sample_rt (nth 0 (stack (push_value boom_chunk empty_state)) VNil)
     (rev (firstn 0 (stack (push_value boom_chunk empty_state))))
     (globals (push_value boom_chunk empty_state)) = (∅, Raised (VString "boom"))) /\
  exists errobj g2,
    pcall sample_rt 0 0 0 (push_value boom_chunk empty_state) =
      (Err (RuntimeError (tostring_value errobj)),
       mk_state (errobj :: skipn 1 (stack (push_value boom_chunk empty_state))) g2 0%nat) /\
    (0 = 0 -> errobj = VString "boom").
Proof.
  split.
  - split; [lia|]. split; [vm_compute; discriminate|].
    split; [left; reflexivity|]. reflexivity.
  - apply (pcall_raise sample_rt (push_value boom_chunk empty_state) 0 0 0 ∅);
      [lia | vm_compute; discriminate | left; reflexivity | reflexivity].
Defined.

(** C9 (amended): loading a syntactically valid script whose chunk returns
    without raising, then calling it with [pcall(0, 0, 0)], succeeds and
    leaves the stack exactly as before the load (the chunk consumed, no
    result kept). *)
Theorem load_pcall_depth (rt : runtime) (s : string) (st : state)
    (g' : gmap string value) (rs : list value) :
  rt_parse rt s = None ->
  rt_call rt (FChunk s s) [] (globals st) = (g', Returned rs) ->
  exec_ops rt [OpLoadString s; OpPcall 0 0 0] st
  = (Ok tt, mk_state (stack st) g' (next_id st)).
Proof.
  intros Hp Hc. simpl. unfold bind, load_string, load_with, bind, lift,
    luaL_loadstring, luaL_loadbuffer.
  rewrite Hp. simpl. unfold pcall. simpl.
  assert (E : (Z.of_nat (S (length (stack st))) <? 0 + 1) = false)
    by (apply Z.ltb_ge; lia).
  rewrite E, Hc. reflexivity.
Qed.

Lemma load_pcall_depth_witness :
  (rt_parse sample_rt "x = f(1)" = None /\
   rt_call sample_rt (FChunk "x = f(1)" "x = f(1)") [] (globals empty_state)
   = (∅, Returned [])) /\
  exec_ops sample_rt [OpLoadString "x = f(1)"; OpPcall 0 0 0] empty_state
  = (Ok tt, mk_state (stack empty_state) ∅ (next_id empty_state)).
Proof.
  split; [split; reflexivity|].
  apply (load_pcall_depth sample_rt "x = f(1)" empty_state ∅ []); reflexivity.
Defined.

(** C9 (counterexample): "error('boom')" is syntactically valid, yet the
    protected call of its chunk throws a runtime error and leaves the error
    object on the stack. *)
Lemma load_pcall_depth_cex :
  rt_parse sample_rt "error('boom')" = None /\
  exec_ops sample_rt [OpLoadString "error('boom')"; OpPcall 0 0 0] empty_state
  = (Err (RuntimeError "boom"), push_value (VString "boom") empty_state).
Proof. split; reflexivity. Qed.

(** ** Inspection, globals and integers *)

(** An index designates nothing when it is 0, above the top, between the
    bottom of the stack and the pseudo-indices, or an upvalue index past the
    running function's upvalues. *)
Lemma index2adr_out_of_range (upvals s : list value) (idx : Z) :
  (idx = 0 \/ Z.of_nat (length s) < idx \/
   (LUA_REGISTRYINDEX < idx /\ idx < - Z.of_nat (length s)) \/
   (idx < LUA_GLOBALSINDEX /\ Z.of_nat (length upvals) < LUA_GLOBALSINDEX - idx)) ->
  index2adr upvals s idx = SNone.
Proof.
  intros H. unfold index2adr. unfold LUA_REGISTRYINDEX, LUA_ENVIRONINDEX,
    LUA_GLOBALSINDEX in *.
  destruct (Z.ltb_spec (-10000) idx).
  - rewrite index2value_out_of_range; [reflexivity|lia].
  - assert (Hu : idx < -10002 /\ Z.of_nat (length upvals) < -10002 - idx) by lia.
    replace ((idx =? -10000) || (idx =? -10001) || (idx =? -10002)) with false
      by (symmetry; repeat rewrite orb_false_iff; repeat split; apply Z.eqb_neq; lia).
    rewrite (proj2 (nth_error_None upvals _)); [reflexivity|lia].
Qed.

(** C6: every type predicate is total: at any index it returns a boolean
    without throwing and without touching the state.  At an index that
    designates nothing (0, above the top, below the bottom of the stack but
    above the pseudo-indices, or past the running function's upvalues) it
    returns [false]; at an index holding a value it returns the type test of
    that value, so a value of another type gives [false]; at the registry,
    environment and globals pseudo-indices only [is_table] holds. *)
Theorem predicates_total (rt : runtime) (upvals : list value) (st : state)
    (idx : Z) :
  Forall (fun pt : (list value -> Z -> M bool) * (value -> bool) * bool =>
            let '(p, t, on_table) := pt in
            exists b, p upvals idx st = (Ok b, st) /\
              ((idx = 0 \/ lua_gettop st < idx \/
                (LUA_REGISTRYINDEX < idx /\ idx < - lua_gettop st) \/
                (idx < LUA_GLOBALSINDEX /\
                 Z.of_nat (length upvals) < LUA_GLOBALSINDEX - idx)) ->
               b = false) /\
              (forall v, index2adr upvals (stack st) idx = SValue v -> b = t v) /\
              (index2adr upvals (stack st) idx = SPseudoTable -> b = on_table))
    [(is_boolean, value_is_boolean, false);
     (is_function, value_is_function, false);
     (is_nil, value_is_nil, false);
     (is_number rt, value_is_number rt, false);
     (is_string, value_is_string, false);
     (is_table, value_is_table, true);
     (is_userdata, value_is_userdata, false)].
Proof.
  apply List.Forall_forall. intros pt Hin. simpl in Hin.
  repeat (destruct Hin as [<-|Hin];
    [eexists; (split; [reflexivity|]);
     (split; [intros Hout; unfold lua_gettop in Hout;
              rewrite (index2adr_out_of_range upvals (stack st) idx Hout);
              reflexivity|]);
     split; [intros v Hv | intros Hv]; unfold inspect; simpl stack;
     rewrite Hv; reflexivity|]).
  destruct Hin.
Qed.

(** C7: pushing 42, [set_global "x"] and [get_global "x"] succeed; the
    set/get round trip leaves the depth reached by the push, with the stack
    below untouched, and the top converts to the integer 42. *)
Theorem global_roundtrip (rt : runtime) (st : state) :
  let r := exec_ops rt [OpPushInteger 42; OpSetGlobal "x"; OpGetGlobal "x"] st in
  fst r = Ok tt /\
  stack (snd r) = VNumber 42 :: stack st /\
  lua_gettop (snd r) = lua_gettop (snd (push_integer 42 st)) /\
  to_integer rt (-1) (snd r) = (Ok 42, snd r).
Proof.
  simpl. unfold bind, push_integer, set_global, get_global, ret. simpl.
  rewrite lookup_insert_eq. simpl.
  split; [reflexivity|]. split; [reflexivity|]. split; [reflexivity|].
  unfold to_integer. simpl stack. rewrite index2value_top. reflexivity.
Qed.

(** C10: [push_integer] takes an [int] and [to_integer] returns a [long]:
    every [int] pushed reads back unchanged. *)
Theorem push_to_integer (rt : runtime) (st : state) (v : Z) :
  -2^31 <= v <= 2^31 - 1 ->
  let st' := snd (push_integer v st) in
  to_integer rt (-1) st' = (Ok v, st').
Proof.
  intros Hv st'. unfold to_integer. subst st'. simpl stack.
  rewrite index2value_top. simpl. rewrite to_long_int by exact Hv. reflexivity.
Qed.

Lemma push_to_integer_witness :
  -2^31 <= -2147483648 <= 2^31 - 1 /\
  to_integer sample_rt (-1) (snd (push_integer (-2147483648) empty_state))
  = (Ok (-2147483648), snd (push_integer (-2147483648) empty_state)).
Proof.
  split; [lia|].
  apply (push_to_integer sample_rt empty_state (-2147483648)); lia.
Defined.

(** ** Ownership of the interpreter instance *)

(** C8: closing an owned handle calls [lua_close] once on its own instance,
    which is then no longer live, and detaches the handle; destroying the
    closed handle, or closing it again, does nothing more; destruction alone
    also closes the owned instance exactly once; a handle wrapping a
    supplied instance leaves the world untouched on destruction (no
    [lua_close], the instance stays live). *)
Theorem state_lifecycle_ownership (w : Lifecycle.world) (i : nat) :
  let h := fst (Lifecycle.state_new w) in
  let w1 := snd (Lifecycle.state_new w) in
  let c := Lifecycle.close h w1 in
  Lifecycle.closed_log (snd c) = Lifecycle.fresh w :: Lifecycle.closed_log w /\
  ~ In (Lifecycle.fresh w) (Lifecycle.live (snd c)) /\
  Lifecycle.lua_state (fst c) = None /\
  Lifecycle.state_destroy (fst c) (snd c) = snd c /\
  Lifecycle.close (fst c) (snd c) = c /\
  Lifecycle.closed_log (Lifecycle.state_destroy h w1)
  = Lifecycle.fresh w :: Lifecycle.closed_log w /\
  Lifecycle.state_destroy (Lifecycle.state_wrap i) w = w.
Proof.
  split; [reflexivity|].
  split; [exact (remove_In Nat.eq_dec (Lifecycle.fresh w :: Lifecycle.live w)
                   (Lifecycle.fresh w))|].
  repeat split; reflexivity.
Qed.

(** ** Guarded scopes *)

(** A guarded block whose body only stacks entries on top of the entry
    stack leaves exactly the entry stack. *)
Lemma with_cleaner_restores {A} (body : M A) (st : state) (vs : list value) :
  stack (snd (body st)) = vs ++ stack st ->
  stack (snd (with_cleaner body st)) = stack st.
Proof.
  intros H. unfold with_cleaner. destruct (body st) as [r st'] eqn:E.
  simpl in *. apply (destroy_restores_suffix _ _ vs); [reflexivity|reflexivity|exact H].
Qed.

(** Loading a script and calling it with [pcall(0, 1, 0)] leaves exactly one
    entry above the entry stack, whatever happens: the diagnostic when the
    load fails, the error object when the call raises, the single result
    otherwise. *)
Lemma iteration_body_extends (rt : runtime) (s : string) (st : state) :
  exists x, stack (snd ((let! _ := load_string rt s in pcall rt 0 1 0) st))
            = x :: stack st.
Proof.
  unfold bind, load_string, load_with, bind, lift, luaL_loadstring, luaL_loadbuffer.
  destruct (rt_parse rt s) as [[line reason]|]; simpl.
  - eexists. reflexivity.
  - unfold pcall. simpl.
    assert (E : (Z.of_nat (S (length (stack st))) <? 0 + 1) = false)
      by (apply Z.ltb_ge; lia).
    rewrite E. simpl.
    destruct (rt_call rt (FChunk s s) [] (globals st)) as [g1 [rs|e]]; simpl.
    + destruct rs; eexists; reflexivity.
    + eexists. reflexivity.
Qed.

Lemma example_loop_stack (rt : runtime) (scripts : list string) (st : state) :
  stack (snd (example_loop rt scripts st)) = stack st.
Proof.
  revert st. induction scripts as [|s ss IH]; intros st; [reflexivity|].
  assert (Hit : stack (snd (example_iteration rt s st)) = stack st).
  { destruct (iteration_body_extends rt s st) as [x Hx].
    apply (with_cleaner_restores _ _ [x]). exact Hx. }
  simpl. unfold bind. destruct (example_iteration rt s st) as [[u|e] st1] eqn:E;
    simpl in Hit.
  - rewrite IH. exact Hit.
  - exact Hit.
Qed.

(** The usage example of the header: each loop iteration's cleaner removes
    what the load and the call left (result, error object or diagnostic),
    and the outer cleaner removes the integers 3 and 5, so the stack ends
    exactly as it was before the block, on normal exit and when a load or a
    call throws. *)
Theorem header_example_restores (rt : runtime) (scripts : list string)
    (st : state) :
  stack (snd (header_example rt scripts st)) = stack st /\
  (forall (s : string) (st' : state),
     stack (snd (example_iteration rt s st')) = stack st').
Proof.
  split.
  - apply (with_cleaner_restores _ _ [VNumber 5; VNumber 3]).
    simpl. unfold bind. simpl.
    rewrite example_loop_stack. reflexivity.
  - intros s st'. destruct (iteration_body_extends rt s st') as [x Hx].
    apply (with_cleaner_restores _ _ [x]). exact Hx.
Qed.

(** Destroying a guard (with a recorded depth that is a real depth) leaves
    a state that a second destruction of the same guard does not change. *)
Lemma destroy_twice (g : stack_cleaner) (st : state) :
  0 <= original_depth g ->
  stack_cleaner_destroy g (stack_cleaner_destroy g st) = stack_cleaner_destroy g st.
Proof.
  intros H0. destruct (forgotten g) eqn:Hf.
  - unfold stack_cleaner_destroy. rewrite Hf. reflexivity.
  - assert (Hd : lua_gettop (stack_cleaner_destroy g st) <= original_depth g).
    { unfold lua_gettop at 1. rewrite (destroy_live_stack g st Hf), length_skipn.
      unfold lua_gettop. lia. }
    remember (stack_cleaner_destroy g st) as st2 eqn:Hst2. clear Hst2.
    unfold stack_cleaner_destroy. rewrite Hf. cbv zeta.
    replace (0 <? lua_gettop st2 - original_depth g) with false
      by (symmetry; apply Z.ltb_ge; lia).
    reflexivity.
Qed.

(** A guarded block placed directly inside another guarded block has the
    same effect as the inner block alone: the outer guard records the same
    depth and finds nothing left to pop, whatever the body does. *)
Theorem with_cleaner_nested {A} (m : M A) (st : state) :
  with_cleaner (with_cleaner m) st = with_cleaner m st.
Proof.
  unfold with_cleaner. destruct (m st) as [r st1].
  rewrite destroy_twice; [reflexivity|]. unfold stack_cleaner_new, lua_gettop.
  simpl. lia.
Qed.

(** ** Results of a protected call *)

(** When the called function returns, [pcall(nargs, nresults, 0)] with
    [nresults >= 0] succeeds and replaces the function and its arguments by
    exactly [nresults] values: the returned ones, truncated or padded with
    [nil], the first result deepest; the entries below are untouched. *)
Theorem pcall_returned (rt : runtime) (st : state) (nargs nresults : Z)
    (g1 : gmap string value) (rs : list value) :
  0 <= nargs ->
  nargs + 1 <= lua_gettop st ->
  0 <= nresults ->
  call_value rt (nth (Z.to_nat nargs) (stack st) VNil)
    (rev (firstn (Z.to_nat nargs) (stack st))) (globals st) = (g1, Returned rs) ->
  exists st',
    pcall rt nargs nresults 0 st = (Ok tt, st') /\
    stack st' = rev (firstn (Z.to_nat nresults)
                       (rs ++ repeat VNil (Z.to_nat nresults)))
                ++ skipn (S (Z.to_nat nargs)) (stack st) /\
    lua_gettop st' = lua_gettop st - nargs - 1 + nresults.
Proof.
  intros Hn Hlen Hr Hcall. unfold pcall.
  assert (E1 : (nargs <? 0) = false) by (apply Z.ltb_ge; lia).
  assert (E2 : (Z.of_nat (length (stack st)) <? nargs + 1) = false)
    by (apply Z.ltb_ge; unfold lua_gettop in Hlen; lia).
  rewrite E1, E2. simpl orb. cbv zeta. simpl (0 =? 0). rewrite Hcall.
  unfold adjust_results.
  replace (nresults =? LUA_MULTRET) with false
    by (symmetry; apply Z.eqb_neq; unfold LUA_MULTRET; lia).
  eexists. split; [reflexivity|]. split; [reflexivity|].
  unfold lua_gettop. simpl stack.
  rewrite length_app, length_rev, length_firstn, length_app, repeat_length,
    length_skipn.
  unfold lua_gettop in Hlen. lia.
Qed.

Lemma pcall_returned_witness :
  (0 <= 0 /\ 0 + 1 <= lua_gettop (push_value (VFunction (FChunk "x" "x")) empty_state) /\
   0 <= 2 /\
   call_value sample_rt (nth 0 (stack (push_value (VFunction (FChunk "x" "x")) empty_state)) VNil)
     (rev (firstn 0 (stack (push_value (VFunction (FChunk "x" "x")) empty_state))))
     (globals (push_value (VFunction (FChunk "x" "x")) empty_state)) = (∅, Returned [])) /\
  exists st',
    pcall sample_rt 0 2 0 (push_value (VFunction (FChunk "x" "x")) empty_state) = (Ok tt, st') /\
    stack st' = rev (firstn 2 ([] ++ repeat VNil 2))
                ++ skipn 1 (stack (push_value (VFunction (FChunk "x" "x")) empty_state)) /\
    lua_gettop st' = lua_gettop (push_value (VFunction (FChunk "x" "x")) empty_state) - 0 - 1 + 2.
Proof.
  split.
  - split; [lia|]. split; [vm_compute; discriminate|]. split; [lia|]. reflexivity.
  - apply (pcall_returned sample_rt (push_value (VFunction (FChunk "x" "x")) empty_state)
             0 2 ∅ []); [lia | vm_compute; discriminate | lia | reflexivity].
Defined.
